(** * A shallow embedding of [app.py], the session-mediating chat front end

    The program keeps, per browser session, a bounded conversation log and
    a daily usage record, and mediates between the user and a remote
    chat-completion provider.  This file embeds the stateful core of
    [app.py] (usage tracking, the rate-limit check, prompt assembly, the
    response clean-up and the log append) and proves the properties the
    specification states about it.

    Modelling conventions.
    - A Python [str] is a sequence of Unicode code points: [list N].
      String constants of the source are written with [lit].
    - Python integers are unbounded: [Z].
    - The Flask [session] is a dict with the three keys the program ever
      stores; it is a record of optional fields, [None] standing for an
      absent key.
    - The body of a request is the value [request.get_json()] returns,
      in each of its JSON shapes; the fields of an object hold text.
    - The wall clock and the provider are the environment of one request:
      the clock is read as one calendar day and one ISO timestamp per
      request, and the provider is a function from the message sequence
      to either a raised exception or an answer, whose usage figures,
      token counts and choices may each be missing.
    - An exception raised by the interpreter inside the [try] block is
      answered by the [except] branch; its text is the interpreter's and
      is kept abstract.
    - [query_route] returns the session after the request, the HTTP
      response and the list of provider calls it made. *)

From stdpp Require Import gmap strings list.

Open Scope Z_scope.

(** ** Text *)

Module Text.

Definition str : Type := list N.

(** A string constant of the source. *)
Definition lit (s : string) : str :=
  map Ascii.N_of_ascii (String.list_ascii_of_string s).

Definition NL : str := [10%N].
Definition DQUOTE : str := [34%N].
Definition STAR : N := 42%N.

(** Python truthiness of a [str]. *)
Definition truthy (s : str) : bool :=
  match s with [] => false | _ :: _ => true end.

(** [str.isspace] for one code point: the ASCII table of CPython
    (TAB..CR, FS..US, SPACE) and the Unicode white-space code points. *)
Definition isspace (c : N) : bool :=
  ((9 <=? c) && (c <=? 13) || (28 <=? c) && (c <=? 32)
   || (c =? 133) || (c =? 160) || (c =? 5760)
   || (8192 <=? c) && (c <=? 8202)
   || (c =? 8232) || (c =? 8233) || (c =? 8239) || (c =? 8287)
   || (c =? 12288))%N.

Fixpoint lstrip (s : str) : str :=
  match s with
  | [] => []
  | c :: s' => if isspace c then lstrip s' else s
  end.

Definition rstrip (s : str) : str := rev (lstrip (rev s)).

(** [s.strip()] *)
Definition strip (s : str) : str := rstrip (lstrip s).

Fixpoint is_prefix (p s : str) : bool :=
  match p, s with
  | [], _ => true
  | a :: p', b :: s' => (a =? b)%N && is_prefix p' s'
  | _ :: _, [] => false
  end.

(** The left-to-right scan of [str.replace] for a non-empty [old]:
    [skip] counts the characters of the occurrence just matched that
    are still to be passed over, so occurrences never overlap. *)
Fixpoint replace_from (old new : str) (skip : nat) (s : str) : str :=
  match s with
  | [] => []
  | c :: s' =>
      match skip with
      | S k => replace_from old new k s'
      | O =>
          if is_prefix old s
          then new ++ replace_from old new (length old - 1) s'
          else c :: replace_from old new 0 s'
      end
  end.

(** [s.replace(old, new)]; with an empty [old] Python puts [new] before
    every character and at the end. *)
Definition replace (old new s : str) : str :=
  match old with
  | [] => new ++ flat_map (fun c => c :: new) s
  | _ :: _ => replace_from old new 0 s
  end.

(** [sub in s] on two strings. *)
Fixpoint contains (sub s : str) : bool :=
  is_prefix sub s
  || match s with
     | [] => false
     | _ :: s' => contains sub s'
     end.

(** Deleting every occurrence of one character. *)
Definition delete_char (x : N) (s : str) : str :=
  List.filter (fun c => negb (c =? x)%N) s.

End Text.

Import Text.

(** ** The response clean-up of [query_route] *)

Definition FALLBACK : str :=
  lit "I couldn't generate a detailed response. Let me try a different approach. "
  ++ lit "Could you rephrase your question or provide more specific details about what you're looking for?".

(** [content.replace('**', '').replace('*', '')] *)
Definition remove_markdown (content : str) : str :=
  replace (lit "*") [] (replace (lit "**") [] content).

(** Lines 143-152: [content] is [None] when the provider sent no text. *)
Definition clean (content : option str) : str :=
  let content1 :=
    match content with
    | Some c => if truthy c then Some (remove_markdown c) else Some c
    | None => None
    end in
  match content1 with
  | Some c => if negb (truthy c) || negb (truthy (strip c)) then FALLBACK else c
  | None => FALLBACK
  end.

(** ** Session state *)

(** One entry of [session['conversation']]. *)
Record Exchange := mkExchange {
  user : str;
  grok : str;
  timestamp : str
}.

(** The dict stored under [session['usage_today']]. *)
Record Usage := mkUsage {
  date : str;
  requests : Z;
  prompt_tokens : Z;
  completion_tokens : Z
}.

(** The Flask session: each field is a key that is present or absent. *)
Record Session := mkSession {
  conversation : option (list Exchange);
  session_start : option str;
  usage_today : option Usage
}.

Definition set_conversation (v : list Exchange) (s : Session) : Session :=
  mkSession (Some v) (session_start s) (usage_today s).

Definition set_usage_today (v : Usage) (s : Session) : Session :=
  mkSession (conversation s) (session_start s) (Some v).

(** [session.clear()] leaves no key. *)
Definition empty_session : Session := mkSession None None None.

(** Python's [l[-k:]] for a positive [k]. *)
Definition last_n {A} (k : nat) (l : list A) : list A :=
  drop (length l - k) l.

(** ** Usage tracking (lines 52-86) *)

Definition zero_usage (today : str) : Usage := mkUsage today 0 0 0.

(** [track_usage]: create the record when the key is absent, replace it
    when it is dated another day, then add the increments. *)
Definition track_usage (today : str) (prompt completion : Z)
    (session : Session) : Session :=
  let session1 :=
    match usage_today session with
    | None => set_usage_today (zero_usage today) session
    | Some _ => session
    end in
  let usage1 := default (zero_usage today) (usage_today session1) in
  let usage2 :=
    if bool_decide (date usage1 ≠ today) then zero_usage today else usage1 in
  set_usage_today
    (mkUsage (date usage2)
             (requests usage2 + 1)
             (prompt_tokens usage2 + prompt)
             (completion_tokens usage2 + completion))
    session1.

(** [track_usage] on token counts that may be [None]: the record is
    created or reset and [requests] is incremented first; adding [None] to
    a counter raises, and what was written before stays.  The flag tells
    whether the function returned; on two integers it does, with the
    session [track_usage] gives. *)
Definition track_usage_partial (today : str) (prompt completion : option Z)
    (session : Session) : Session * bool :=
  let session1 :=
    match usage_today session with
    | None => set_usage_today (zero_usage today) session
    | Some _ => session
    end in
  let usage1 := default (zero_usage today) (usage_today session1) in
  let usage2 :=
    if bool_decide (date usage1 ≠ today) then zero_usage today else usage1 in
  let usage3 :=
    mkUsage (date usage2) (requests usage2 + 1)
            (prompt_tokens usage2) (completion_tokens usage2) in
  match prompt with
  | None => (set_usage_today usage3 session1, false)
  | Some p =>
      let usage4 :=
        mkUsage (date usage3) (requests usage3)
                (prompt_tokens usage3 + p) (completion_tokens usage3) in
      match completion with
      | None => (set_usage_today usage4 session1, false)
      | Some c =>
          (set_usage_today
             (mkUsage (date usage4) (requests usage4) (prompt_tokens usage4)
                      (completion_tokens usage4 + c))
             session1, true)
      end
  end.

Definition REQUEST_LIMIT_MSG : str :=
  lit "Daily request limit reached (50). Please try again tomorrow.".

Definition TOKEN_LIMIT_MSG : str :=
  lit "Daily token limit reached. Please try again tomorrow.".

(** [usage.get(key, 0)] on [session.get('usage_today', {})]. *)
Definition usage_get (field : Usage → Z) (usage : option Usage) : Z :=
  match usage with
  | Some u => field u
  | None => 0
  end.

(** [check_rate_limit]: the pair (can proceed, error message). *)
Definition check_rate_limit (session : Session) : bool * option str :=
  let usage := usage_today session in
  if 50 <? usage_get requests usage then (false, Some REQUEST_LIMIT_MSG)
  else if 25000 <? usage_get completion_tokens usage
       then (false, Some TOKEN_LIMIT_MSG)
       else (true, None).

(** ** Prompt assembly (lines 117-128) *)

Inductive Role := System | User | Assistant.

Record Message := mkMessage {
  role : Role;
  content : str
}.

Definition SYSTEM_PROMPT : str :=
  concat
    [ lit "You are GROK, a helpful assistant. Respond briefly and directly:"; NL;
      NL;
      lit "For SIMPLE questions (name, greeting, basic info from our conversation):"; NL;
      lit "- Give a short, direct answer (1 sentence maximum)"; NL;
      lit "- Don't ask follow-up questions or elaborate"; NL;
      lit "- Just answer what was asked"; NL;
      NL;
      lit "For SERVICE PROVIDER questions (best service, who provides, recommendations):"; NL;
      lit "- Start directly with specific recommendations"; NL;
      lit "- Give 2-3 concrete options with names, locations, and contact info"; NL;
      lit "- Include a short 'How to verify' section with 3-4 bullet points"; NL;
      lit "- Total response should be 150-300 words maximum"; NL;
      NL;
      lit "For GENERAL questions:"; NL;
      lit "- Give clear, concise answers"; NL;
      lit "- Don't over-explain or ask follow-ups unless requested"; NL;
      NL;
      lit "ALWAYS:"; NL;
      lit "- Be direct and to-the-point"; NL;
      lit "- Don't ask unnecessary follow-up questions"; NL;
      lit "- No markdown formatting"; NL;
      lit "- Answer the question asked, nothing more" ].

Definition INSTRUCTION_PREFIX : str :=
  lit "Please provide a comprehensive, detailed answer: ".

(** The list built before the provider call. *)
Definition conversation_messages (session : Session) (query : str)
    : list Message :=
  [mkMessage System SYSTEM_PROMPT]
  ++ flat_map (fun c => [mkMessage User (user c); mkMessage Assistant (grok c)])
              (last_n 3 (default [] (conversation session)))
  ++ [mkMessage User (INSTRUCTION_PREFIX ++ query)].

(** ** The environment of a request *)

(** A well-formed answer of the provider: the usage figures and the text
    of the first choice, which may be absent. *)
Record Completion := mkCompletion {
  usage_prompt_tokens : Z;
  usage_completion_tokens : Z;
  usage_total_tokens : Z;
  message_content : option str
}.

(** [completion.usage], each figure of which may be [None]. *)
Record UsageFigures := mkUsageFigures {
  reported_prompt_tokens : option Z;
  reported_completion_tokens : option Z;
  reported_total_tokens : option Z
}.

(** The object the provider call returns, as lines 139-143 read it:
    [usage] may be [None]; [choices] lists, per choice, the content of its
    message ([None] when there is no text), or [None] when the choice has
    no message.  A [choices] that is itself [None] fails at the same
    subscript as the empty list. *)
Record Answer := mkAnswer {
  answer_usage : option UsageFigures;
  answer_choices : list (option (option str))
}.

Inductive ProviderResult :=
| Raises (e : str)
| Answers (answer : Answer).

(** The provider returns a well-formed answer. *)
Definition Returns (completion : Completion) : ProviderResult :=
  Answers
    (mkAnswer
       (Some (mkUsageFigures (Some (usage_prompt_tokens completion))
                             (Some (usage_completion_tokens completion))
                             (Some (usage_total_tokens completion))))
       [Some (message_content completion)]).

Record Env := mkEnv {
  today : str;
  now_iso : str;
  provider : list Message → ProviderResult
}.

(** The value [request.get_json()] returns.  Of a number or a boolean the
    code reads the truth value only; of the items of an array, whether
    they equal a string. *)
Inductive Payload :=
| JNull
| JScalar (truth : bool)
| JText (s : str)
| JArray (items : list (option str))
| JObject (fields : gmap str str).

(** [get_json] is [None] when the body does not parse: Flask then answers
    400 itself. *)
Record Request := mkRequest {
  is_json : bool;
  get_json : option Payload
}.

(** Python truthiness of the body. *)
Definition payload_truthy (data : Payload) : bool :=
  match data with
  | JNull => false
  | JScalar truth => truth
  | JText s => truthy s
  | JArray items => match items with [] => false | _ :: _ => true end
  | JObject fields => negb (bool_decide (fields = ∅))
  end.

(** ['query' in data]: a key test on an object, a membership test on an
    array, a substring test on a string; [None] where Python raises
    [TypeError]. *)
Definition has_query (data : Payload) : option bool :=
  match data with
  | JNull | JScalar _ => None
  | JText s => Some (contains (lit "query") s)
  | JArray items => Some (bool_decide (Some (lit "query") ∈ items))
  | JObject fields => Some (bool_decide (is_Some (fields !! lit "query")))
  end.

(** [data['query']]: [None] where Python raises, as it does on an array
    and on a string. *)
Definition subscript_query (data : Payload) : option str :=
  match data with
  | JObject fields => fields !! lit "query"
  | _ => None
  end.

(** The exceptions the interpreter raises inside the [try] block:
    [data['query']] on an array or a string (line 127); an attribute read
    on a [usage] that is [None] (line 140); [+= None] on a counter (lines
    72-73); [choices[0]] on an empty list and [.content] on a message that
    is [None] (line 143). *)
Inductive RuntimeError :=
| NotSubscriptable
| NoUsage
| NoneIncrement
| NoChoice
| NoMessage.

(** The body of a response: the JSON objects of the route, with the text
    of an interpreter exception kept abstract, and the page Flask sends
    for an error it answers itself. *)
Inductive Body :=
| ErrorBody (error : option str)
| RuntimeErrorBody (e : RuntimeError)
| FrameworkPage
| SuccessBody (query response model : str)
              (prompt completion : Z) (total : option Z)
              (session_active : bool).

Record Response := mkResponse {
  body : Body;
  status : Z
}.

Record Outcome := mkOutcome {
  session_after : Session;
  response : Response;
  provider_calls : list (list Message)
}.

(** A return that touches neither the session nor the provider. *)
Definition reject (session : Session) (msg : option str) (code : Z) : Outcome :=
  mkOutcome session (mkResponse (ErrorBody msg) code) [].

Definition MISSING_QUERY_MSG : str :=
  lit "Missing " ++ DQUOTE ++ lit "query" ++ DQUOTE ++ lit " parameter".

(** ** Routes *)

(** [home]: the first visit creates the conversation state. *)
Definition home (env : Env) (session : Session) : Session :=
  match conversation session with
  | None => mkSession (Some []) (Some (now_iso env)) (usage_today session)
  | Some _ => session
  end.

(** [clear_session] *)
Definition clear_session (session : Session) : Session := empty_session.

(** Lines 155-163: append the exchange, keep the last ten. *)
Definition append_exchange (log : list Exchange) (e : Exchange)
    : list Exchange :=
  last_n 10 (log ++ [e]).

(** [query_route].  The tests of lines 99-113 come before the [try]: an
    exception there (the membership test on a number or a boolean) is not
    caught and Flask answers 500 itself.  Inside the [try] every exception
    ends in the [except] branch with status 500, whatever was written to
    the session before it. *)
Definition query_route (env : Env) (req : Request) (session : Session)
    : Outcome :=
  match conversation session with
  | None =>
      reject session (Some (lit "Session expired. Please refresh the page.")) 440
  | Some _ =>
  if negb (is_json req)
  then reject session (Some (lit "Request must be JSON")) 400
  else
  match get_json req with
  | None => mkOutcome session (mkResponse FrameworkPage 400) []
  | Some data =>
  if negb (payload_truthy data)
  then reject session (Some MISSING_QUERY_MSG) 400
  else
  match has_query data with
  | None => mkOutcome session (mkResponse FrameworkPage 500) []
  | Some false => reject session (Some MISSING_QUERY_MSG) 400
  | Some true =>
  let (can_proceed, error_msg) := check_rate_limit session in
  if negb can_proceed
  then reject session error_msg 429
  else
  let caught e session' calls :=
    mkOutcome session' (mkResponse (RuntimeErrorBody e) 500) calls in
  match subscript_query data with
  | None => caught NotSubscriptable session []
  | Some query =>
    let messages := conversation_messages session query in
    match provider env messages with
    | Raises e =>
        mkOutcome session (mkResponse (ErrorBody (Some e)) 500) [messages]
    | Answers completion =>
    match answer_usage completion with
    | None => caught NoUsage session [messages]
    | Some usage =>
    match reported_prompt_tokens usage, reported_completion_tokens usage with
    | Some prompt, Some completion_count =>
    let session1 :=
      track_usage (today env) prompt completion_count session in
    match answer_choices completion with
    | [] => caught NoChoice session1 [messages]
    | None :: _ => caught NoMessage session1 [messages]
    | Some content0 :: _ =>
        let content := clean content0 in
        let log :=
          append_exchange (default [] (conversation session1))
                          (mkExchange query content (now_iso env)) in
        mkOutcome
          (set_conversation log session1)
          (mkResponse
             (SuccessBody query content (lit "grok-4")
                          prompt completion_count
                          (reported_total_tokens usage) true)
             200)
          [messages]
    end
    | prompt, completion_count =>
        caught NoneIncrement
               (fst (track_usage_partial (today env) prompt completion_count
                                         session))
               [messages]
    end
    end
    end
  end
  end
  end
  end.

(** [session_status]: the body of the JSON answer.  An absent
    [usage_today] is reported as the empty object, here [None]. *)
Record StatusBody := mkStatusBody {
  active : bool;
  conversation_count : Z;
  reported_session_start : str;
  reported_usage_today : option Usage
}.

Definition session_status (session : Session) : StatusBody :=
  mkStatusBody
    (bool_decide (is_Some (conversation session)))
    (Z.of_nat (length (default [] (conversation session))))
    (default (lit "unknown") (session_start session))
    (usage_today session).

(** ** Runs of requests

    The routes that read or write the session, and a session driven
    through a sequence of them, each with the environment of its own
    request.  [make_session_permanent] runs before every route and only
    sets the cookie lifetime; it touches none of the keys above. *)

Inductive Call :=
| Home
| Query (req : Request)
| SessionStatus
| ClearSession.

Definition step (env : Env) (call : Call) (session : Session) : Session :=
  match call with
  | Home => home env session
  | Query req => session_after (query_route env req session)
  | SessionStatus => session
  | ClearSession => clear_session session
  end.

Definition run (calls : list (Env * Call)) (session : Session) : Session :=
  fold_left (fun s ec => step (fst ec) (snd ec) s) calls session.

(** The completion-token count [n] is zero, or one the provider reported
    in answer to [messages]. *)
Definition reported_by (env : Env) (messages : list Message) (n : Z) : Prop :=
  n = 0
  ∨ ∃ a u, provider env messages = Answers a
           ∧ answer_usage a = Some u
           ∧ reported_completion_tokens u = Some n.

(** Properties of a session that the routes keep. *)

Definition requests_in_range (s : Session) : Prop :=
  match usage_today s with
  | Some u => 1 ≤ requests u ≤ 51
  | None => True
  end.

Definition log_in_shape (s : Session) : Prop :=
  (length (default [] (conversation s)) ≤ 10)%nat
  ∧ Forall (fun e => (STAR ∉ grok e) ∧ forallb isspace (grok e) = false)
           (default [] (conversation s)).

Definition started (s : Session) : Prop :=
  conversation s = None ∨ ∃ t, session_start s = Some t.

(** [track_usage] applied to a sequence of increments on one day. *)
Definition track_all (today : str) (increments : list (Z * Z))
    (session : Session) : Session :=
  fold_left (fun s pc => track_usage today (fst pc) (snd pc) s)
            increments session.

(** ** The specification's wording of the derived operations

    These follow the specification text; the theorems below compare them
    with the definitions above, which follow the source. *)

(** [clean] as the specification words it: every emphasis marker gone,
    the fallback for text that is empty or all white space. *)
Definition clean_spec (raw_text : str) : str :=
  let stripped := delete_char STAR raw_text in
  if forallb isspace stripped then FALLBACK else stripped.

(** The history part of the message sequence: a user message and an
    assistant message per exchange, in order. *)
Fixpoint history_spec (recent_exchanges : list Exchange) : list Message :=
  match recent_exchanges with
  | [] => []
  | e :: rest =>
      mkMessage User (user e) :: mkMessage Assistant (grok e)
      :: history_spec rest
  end.

(** [build(system_prompt, recent_exchanges, new_query)] *)
Definition build_spec (system_prompt : str) (recent_exchanges : list Exchange)
    (new_query : str) : list Message :=
  mkMessage System system_prompt
  :: history_spec recent_exchanges
  ++ [mkMessage User (INSTRUCTION_PREFIX ++ new_query)].

(** [current(record)]: the stored record when it is dated today, a zeroed
    view otherwise. *)
Definition current_usage (today : str) (session : Session) : Usage :=
  match usage_today session with
  | Some u => if bool_decide (date u = today) then u else zero_usage today
  | None => zero_usage today
  end.

(** A usage record with a number of requests and token totals added. *)
Definition add_usage (u : Usage) (n prompt completion : Z) : Usage :=
  mkUsage (date u) (requests u + n) (prompt_tokens u + prompt)
          (completion_tokens u + completion).

Definition total (xs : list Z) : Z := fold_right Z.add 0 xs.

(** The query text a request carries, if any. *)
Definition query_of (req : Request) : option str :=
  if is_json req
  then match get_json req with
       | Some (JObject data) => data !! lit "query"
       | _ => None
       end
  else None.



(** A run of appends to a log, oldest first. *)
Definition appends (log : list Exchange) (es : list Exchange)
    : list Exchange :=
  fold_left append_exchange es log.

(** ** Concrete sessions, requests and environments

    Used by the examples below. *)

(** A session that has visited [home] and holds one usage record. *)
Definition usage_session (day : str) (reqs prompt completion : Z) : Session :=
  mkSession (Some []) (Some (lit "2024-01-02T09:00:00"))
            (Some (mkUsage day reqs prompt completion)).

Definition fresh_session : Session :=
  mkSession (Some []) (Some (lit "2024-01-02T09:00:00")) None.

Definition ask (text : str) : Request :=
  mkRequest true (Some (JObject {[ lit "query" := text ]})).

(** A provider that answers every call with the same completion. *)
Definition answering (text : str) (prompt completion : Z) : Env :=
  mkEnv (lit "2024-01-02") (lit "2024-01-02T10:30:00")
        (fun _ => Returns (mkCompletion prompt completion (prompt + completion)
                                        (Some text))).

(** A provider that is down. *)
Definition failing (msg : str) : Env :=
  mkEnv (lit "2024-01-02") (lit "2024-01-02T10:30:00") (fun _ => Raises msg).

Definition sample_exchange (n : N) : Exchange :=
  mkExchange [81%N; n] [65%N; n] (lit "2024-01-02T10:00:00").

(** ** Lemmas on text *)

Section TextLemmas.

Lemma is_prefix_app (p s : str) : is_prefix p (p ++ s) = true.
Proof.
  induction p as [|a p IH]; simpl; [done|].
  by rewrite N.eqb_refl, IH.
Qed.

Lemma is_prefix_spec (p s : str) :
  is_prefix p s = true ↔ ∃ r, s = p ++ r.
Proof.
  split.
  - revert s. induction p as [|a p IH]; intros s H.
    + by exists s.
    + destruct s as [|b s]; simpl in H; [done|].
      apply andb_prop in H as [Hab Hp]. apply N.eqb_eq in Hab as ->.
      destruct (IH _ Hp) as [r ->]. by exists r.
  - intros [r ->]. apply is_prefix_app.
Qed.

(** Passing over [k] pending characters is dropping them. *)
Lemma replace_from_skip (old new : str) (k : nat) (s : str) :
  replace_from old new k s = replace_from old new 0 (drop k s).
Proof.
  revert k. induction s as [|c s IH]; intros k.
  - by destruct k.
  - destruct k as [|k]; [done|]. simpl. apply IH.
Qed.

(** The two equations that characterise [str.replace]: a match at the
    front is replaced and the scan resumes after it; otherwise the
    character is kept. *)
Lemma replace_match (c : N) (old new rest : str) :
  replace (c :: old) new ((c :: old) ++ rest)
  = new ++ replace (c :: old) new rest.
Proof.
  unfold replace. cbn [app replace_from].
  change (is_prefix (c :: old) (c :: old ++ rest))
    with (is_prefix (c :: old) ((c :: old) ++ rest)).
  rewrite is_prefix_app, replace_from_skip.
  replace (length (c :: old) - 1)%nat with (length old) by (simpl; lia).
  by rewrite drop_app_length.
Qed.

Lemma replace_nomatch (c : N) (old new s : str) (x : N) :
  is_prefix (c :: old) (x :: s) = false →
  replace (c :: old) new (x :: s) = x :: replace (c :: old) new s.
Proof.
  intros H. unfold replace. cbn [replace_from]. by rewrite H.
Qed.

Lemma replace_nil (c : N) (old new : str) :
  replace (c :: old) new [] = [].
Proof. done. Qed.

Lemma delete_char_cons (x c : N) (s : str) :
  delete_char x (c :: s)
  = if (c =? x)%N then delete_char x s else c :: delete_char x s.
Proof. unfold delete_char. simpl. by destruct (c =? x)%N. Qed.

Lemma delete_char_free (x : N) (s : str) : x ∉ delete_char x s.
Proof.
  induction s as [|c s IH]; [apply not_elem_of_nil|].
  rewrite delete_char_cons. destruct (c =? x)%N eqn:E; [done|].
  apply N.eqb_neq in E. rewrite elem_of_cons. intros [->|H]; done.
Qed.

Lemma delete_char_id (x : N) (s : str) : x ∉ s → delete_char x s = s.
Proof.
  induction s as [|c s IH]; intros H; [done|].
  rewrite delete_char_cons. apply not_elem_of_cons in H as [Hc Hs].
  destruct (N.eqb_spec c x) as [->|_]; [done|]. by rewrite IH.
Qed.

(** Replacing a one-character string by nothing deletes the character. *)
Lemma replace_char (x : N) (s : str) : replace [x] [] s = delete_char x s.
Proof.
  unfold replace. induction s as [|c s IH]; [done|].
  rewrite delete_char_cons. cbn [replace_from is_prefix length].
  rewrite andb_true_r, N.eqb_sym.
  destruct (c =? x)%N; simpl; by rewrite IH.
Qed.

(** A text without the first character of [old] holds no occurrence. *)
Lemma replace_absent (x : N) (old new s : str) :
  x ∉ s → replace (x :: old) new s = s.
Proof.
  unfold replace. induction s as [|c s IH]; intros H; [done|].
  apply not_elem_of_cons in H as [Hc Hs].
  cbn [replace_from is_prefix].
  destruct (N.eqb_spec x c) as [->|_]; [done|]. simpl. by rewrite IH.
Qed.

(** Removing pairs of a character removes only that character. *)
Lemma delete_char_replace_pair (x : N) (s : str) :
  delete_char x (replace [x; x] [] s) = delete_char x s.
Proof.
  remember (length s) as n eqn:Hn.
  revert s Hn. induction n as [n IH] using lt_wf_ind. intros s Hn.
  destruct s as [|c s]; [done|].
  destruct (is_prefix [x; x] (c :: s)) eqn:E.
  - apply is_prefix_spec in E as [r Hr]. rewrite Hr, replace_match.
    simpl. rewrite N.eqb_refl. simpl.
    apply (IH (length r)); [|done].
    subst n. rewrite Hr. simpl. lia.
  - rewrite replace_nomatch by done. rewrite !delete_char_cons.
    rewrite (IH (length s)); [done| |done]. subst n. simpl. lia.
Qed.

Lemma lstrip_nil (s : str) : lstrip s = [] ↔ forallb isspace s = true.
Proof.
  induction s as [|c s IH]; simpl; [done|].
  destruct (isspace c); simpl; [done|]. split; discriminate.
Qed.

Lemma lstrip_head (s : str) :
  match lstrip s with
  | [] => True
  | c :: _ => isspace c = false
  end.
Proof.
  induction s as [|c s IH]; simpl; [done|].
  by destruct (isspace c) eqn:E.
Qed.

Lemma forallb_isspace_rev (s : str) :
  forallb isspace (rev s) = forallb isspace s.
Proof.
  apply eq_true_iff_eq. rewrite !forallb_forall.
  split; intros H c Hc; apply H; by apply in_rev in Hc || apply in_rev.
Qed.

(** [s.strip()] is empty exactly when [s] is white space throughout. *)
Lemma strip_nil (s : str) : strip s = [] ↔ forallb isspace s = true.
Proof.
  unfold strip, rstrip. rewrite <- lstrip_nil.
  split.
  - intros H. apply (f_equal (@rev N)) in H. rewrite rev_involutive in H.
    simpl in H. apply lstrip_nil in H. rewrite forallb_isspace_rev in H.
    pose proof (lstrip_head s) as Hh.
    destruct (lstrip s) as [|c r]; [done|].
    simpl in H. by rewrite Hh in H.
  - by intros ->.
Qed.

Lemma truthy_false (s : str) : truthy s = false ↔ s = [].
Proof. by destruct s. Qed.

End TextLemmas.

(** ** Lists: the slice [l[-k:]] *)

Section LastN.

Context {A : Type}.
Implicit Types (l : list A) (k : nat).

Lemma last_n_length k l : length (last_n k l) = Nat.min k (length l).
Proof. unfold last_n. rewrite length_drop. lia. Qed.

Lemma last_n_suffix k l : l = take (length l - k) l ++ last_n k l.
Proof. unfold last_n. by rewrite take_drop. Qed.

Lemma last_n_short k l : (length l ≤ k)%nat → last_n k l = l.
Proof.
  intros H. unfold last_n.
  by replace (length l - k)%nat with 0%nat by lia.
Qed.

(** Trimming early does not change what a later trim keeps. *)
Lemma last_n_absorb k l1 l2 :
  last_n k (last_n k l1 ++ l2) = last_n k (l1 ++ l2).
Proof.
  destruct (decide (length l1 ≤ k)%nat) as [Hle|Hgt].
  - by rewrite (last_n_short k l1).
  - unfold last_n at 1 3. rewrite !length_app, last_n_length.
    rewrite !skipn_app, last_n_length. unfold last_n.
    rewrite drop_drop. f_equal; f_equal; lia.
Qed.

Lemma last_n_snoc k l (x : A) :
  last_n (S k) (l ++ [x]) = last_n k l ++ [x].
Proof.
  unfold last_n. rewrite length_app, skipn_app. simpl length.
  replace (length l + 1 - S k)%nat with (length l - k)%nat by lia.
  replace (length l - k - length l)%nat with 0%nat by lia.
  done.
Qed.

End LastN.

(** ** The conversation log *)

Section Log.

Lemma appends_last_n (seen es : list Exchange) :
  appends (last_n 10 seen) es = last_n 10 (seen ++ es).
Proof.
  revert seen. induction es as [|e es IH]; intros seen.
  - by rewrite app_nil_r.
  - cbn [appends fold_left]. unfold append_exchange at 2.
    rewrite last_n_absorb. fold (appends (last_n 10 (seen ++ [e])) es).
    rewrite IH. by rewrite <- app_assoc.
Qed.

Lemma appends_from_empty (es : list Exchange) :
  appends [] es = last_n 10 es.
Proof. apply (appends_last_n [] es). Qed.

Lemma appends_snoc (log es : list Exchange) (e : Exchange) :
  appends log (es ++ [e]) = append_exchange (appends log es) e.
Proof. unfold appends. by rewrite fold_left_app. Qed.

Lemma append_exchange_last (log : list Exchange) (e : Exchange) :
  last (append_exchange log e) = Some e.
Proof.
  unfold append_exchange. rewrite last_n_snoc. apply last_snoc.
Qed.

Lemma history_spec_flat_map (es : list Exchange) :
  flat_map (fun c => [mkMessage User (user c); mkMessage Assistant (grok c)]) es
  = history_spec es.
Proof. induction es as [|e es IH]; simpl; by rewrite ?IH. Qed.

Lemma history_spec_length (es : list Exchange) :
  length (history_spec es) = (2 * length es)%nat.
Proof. induction es as [|e es IH]; simpl; lia. Qed.

Lemma conversation_messages_build (s : Session) (q : str) :
  conversation_messages s q
  = build_spec SYSTEM_PROMPT (last_n 3 (default [] (conversation s))) q.
Proof.
  unfold conversation_messages, build_spec.
  by rewrite history_spec_flat_map.
Qed.

End Log.

(** ** The gates of [query_route] *)

(** A request that carries a query has a JSON object that is not empty. *)
Lemma query_of_Some (req : Request) (q : str) :
  query_of req = Some q →
  ∃ data, is_json req = true ∧ get_json req = Some (JObject data)
          ∧ data ≠ ∅ ∧ data !! lit "query" = Some q.
Proof.
  unfold query_of. destruct (is_json req); [|done].
  destruct (get_json req) as [[| | | |data]|]; try done.
  intros H. exists data. repeat split; try done.
  intros ->. by rewrite lookup_empty in H.
Qed.

(** Past the gates -- an active session, a body that carries a query, a
    rate limit not reached -- what [query_route] does is decided by the
    provider's answer to the assembled messages. *)
Ltac pass_gates Hlog Hq Hok :=
  let data := fresh "data" in
  let ok := fresh "ok" in
  let msg := fresh "msg" in
  let Hjson := fresh "Hjson" in
  let Hdata := fresh "Hdata" in
  let Hne := fresh "Hne" in
  destruct Hlog as [? Hlog];
  apply query_of_Some in Hq as (data & Hjson & Hdata & Hne & Hq);
  unfold query_route; rewrite Hlog, Hjson, Hdata;
  cbn [negb payload_truthy has_query subscript_query];
  rewrite (bool_decide_eq_false_2 _ Hne), Hq;
  rewrite (bool_decide_eq_true_2 (is_Some (Some _)))
    by (eexists; reflexivity);
  destruct (check_rate_limit _) as [ok msg]; cbn [fst] in Hok; subst ok;
  cbn [negb].

Lemma query_of_ask (q : str) : query_of (ask q) = Some q.
Proof. unfold query_of, ask. simpl. apply lookup_singleton_eq. Qed.

(** ** Usage tracking and the rate limit *)

Section Quota.

Lemma check_rate_limit_denies (s : Session) :
  fst (check_rate_limit s) = false
  ↔ 50 < usage_get requests (usage_today s)
    ∨ 25000 < usage_get completion_tokens (usage_today s).
Proof.
  unfold check_rate_limit.
  destruct (Z.ltb_spec 50 (usage_get requests (usage_today s)));
  destruct (Z.ltb_spec 25000 (usage_get completion_tokens (usage_today s)));
  simpl; split; (lia || auto || (intros [?|?]; lia || done)); done.
Qed.

(** The check reads the counters only: the day of the record plays no part. *)
Lemma check_rate_limit_ignores_date (day1 day2 : str) (r p c : Z) :
  check_rate_limit (usage_session day1 r p c)
  = check_rate_limit (usage_session day2 r p c).
Proof. done. Qed.

(** A denied request leaves [query_route] no way to reach [track_usage],
    so the counters that caused the denial stay as they are. *)
Lemma denied_is_stuck (env : Env) (q : str) (s : Session) :
  is_Some (conversation s) →
  fst (check_rate_limit s) = false →
  session_after (query_route env (ask q) s) = s
  ∧ status (response (query_route env (ask q) s)) = 429.
Proof.
  intros [log Hlog] Hdenied. unfold query_route, ask. rewrite Hlog.
  cbn [is_json get_json negb payload_truthy has_query].
  rewrite bool_decide_eq_false_2 by (apply insert_non_empty).
  rewrite lookup_singleton_eq.
  rewrite (bool_decide_eq_true_2 (is_Some (Some _))) by (eexists; reflexivity).
  cbn [negb].
  destruct (check_rate_limit s) as [ok msg]. simpl in Hdenied. by subst ok.
Qed.

(** C1 (the code at the quota itself): with exactly 50 requests, or with
    exactly 25000 completion tokens, recorded, [check_rate_limit] lets
    the request through; it denies from 51 requests and from 25001
    tokens on.  The comparison of the source is strict. *)
Theorem check_rate_limit_at_quota :
  check_rate_limit (usage_session (lit "2024-01-02") 50 0 0) = (true, None)
  ∧ check_rate_limit (usage_session (lit "2024-01-02") 0 0 25000) = (true, None)
  ∧ check_rate_limit (usage_session (lit "2024-01-02") 49 0 24999) = (true, None)
  ∧ check_rate_limit (usage_session (lit "2024-01-02") 51 0 0)
    = (false, Some REQUEST_LIMIT_MSG)
  ∧ check_rate_limit (usage_session (lit "2024-01-02") 0 0 25001)
    = (false, Some TOKEN_LIMIT_MSG).
Proof. repeat split. Qed.

(** C2 (the code on a record of an earlier day): a session whose usage
    record is dated 2024-01-01 and counts 51 requests is still refused
    on 2024-01-02, with status 429, no provider call and the record
    untouched; [check_rate_limit] never looks at the date. *)
Theorem stale_usage_still_denied :
  let s := usage_session (lit "2024-01-01") 51 900 700 in
  let env := answering (lit "4") 10 1 in
  date (default (zero_usage []) (usage_today s)) ≠ today env
  ∧ query_route env (ask (lit "What is 2+2?")) s
    = reject s (Some REQUEST_LIMIT_MSG) 429.
Proof. split; [done|]. vm_compute. reflexivity. Qed.

(** C6: recording on a record dated another day discards the old counts:
    the stored record becomes the one dated today with one request and
    exactly the token increments; the other session keys are kept.
    [track_usage] is a total function, so recording always succeeds. *)
Theorem track_usage_resets_stale (today : str) (prompt completion : Z)
    (s : Session) (u : Usage) :
  usage_today s = Some u →
  date u ≠ today →
  track_usage today prompt completion s
  = mkSession (conversation s) (session_start s)
              (Some (mkUsage today 1 prompt completion)).
Proof.
  intros Hu Hdate. unfold track_usage. rewrite Hu. simpl. rewrite Hu. simpl.
  by rewrite bool_decide_eq_true_2.
Qed.

Lemma track_usage_resets_stale_witness :
  track_usage (lit "2024-01-02") 10 1
              (usage_session (lit "2024-01-01") 51 900 700)
  = mkSession (Some []) (Some (lit "2024-01-02T09:00:00"))
              (Some (mkUsage (lit "2024-01-02") 1 10 1)).
Proof.
  apply (track_usage_resets_stale (lit "2024-01-02") 10 1
           (usage_session (lit "2024-01-01") 51 900 700)
           (mkUsage (lit "2024-01-01") 51 900 700)).
  - reflexivity.
  - vm_compute. discriminate.
Defined.

(** Recording on a record of today adds to it. *)
Lemma track_usage_same_day (today : str) (prompt completion : Z)
    (s : Session) (u : Usage) :
  usage_today s = Some u →
  date u = today →
  usage_today (track_usage today prompt completion s)
  = Some (mkUsage today (requests u + 1) (prompt_tokens u + prompt)
                  (completion_tokens u + completion)).
Proof.
  intros Hu Hdate. unfold track_usage. rewrite Hu. simpl. rewrite Hu. simpl.
  rewrite bool_decide_eq_false_2 by (intros H; by apply H).
  by rewrite Hdate.
Qed.

(** Recording when the session has no record yet creates it. *)
Lemma track_usage_first (today : str) (prompt completion : Z) (s : Session) :
  usage_today s = None →
  usage_today (track_usage today prompt completion s)
  = Some (mkUsage today 1 prompt completion).
Proof.
  intros Hu. unfold track_usage. rewrite Hu. simpl.
  by rewrite bool_decide_eq_false_2 by (intros H; by apply H).
Qed.

Lemma track_usage_conversation (today : str) (p c : Z) (s : Session) :
  conversation (track_usage today p c s) = conversation s.
Proof. unfold track_usage. by destruct (usage_today s). Qed.

End Quota.

(** ** The conversation window and the log *)

Section Window.

(** C9: the slice read for prompting is a suffix of the log, of length
    [min 3 (length log)], and it is what the message sequence is built
    from; the slice is total, so it never raises. *)
Theorem recent_window_is_last_three (s : Session) (q : str) :
  let log := default [] (conversation s) in
  let window := last_n 3 log in
  length window = Nat.min 3 (length log)
  ∧ (length window ≤ 3)%nat
  ∧ log = take (length log - length window) log ++ window
  ∧ conversation_messages s q = build_spec SYSTEM_PROMPT window q.
Proof.
  intros log window. subst window.
  rewrite last_n_length. split; [done|]. split; [lia|]. split.
  - replace (length log - Nat.min 3 (length log))%nat
      with (length log - 3)%nat by lia.
    apply last_n_suffix.
  - apply conversation_messages_build.
Qed.

(** C5: after any run of appends from the empty log, the log holds at
    most 10 exchanges, exactly [min 10 n] of them, and they are the last
    ones appended, oldest first; one more append is one more step of the
    same run. *)
Theorem log_keeps_last_ten (es : list Exchange) :
  let log := appends [] es in
  (length log ≤ 10)%nat
  ∧ length log = Nat.min 10 (length es)
  ∧ es = take (length es - length log) es ++ log
  ∧ ∀ e, appends [] (es ++ [e]) = append_exchange log e.
Proof.
  intros log. subst log. rewrite appends_from_empty, last_n_length.
  split; [lia|]. split; [done|]. split.
  - replace (length es - Nat.min 10 (length es))%nat
      with (length es - 10)%nat by lia.
    apply last_n_suffix.
  - intros e. by rewrite appends_snoc, appends_from_empty.
Qed.

Example log_of_twelve :
  appends [] (map sample_exchange [1;2;3;4;5;6;7;8;9;10;11;12]%N)
  = map sample_exchange [3;4;5;6;7;8;9;10;11;12]%N.
Proof. reflexivity. Qed.

Example window_of_two :
  last_n 3 (map sample_exchange [1;2]%N) = map sample_exchange [1;2]%N.
Proof. reflexivity. Qed.

End Window.

(** ** The response clean-up *)

Section Sanitizer.

(** The two passes of the source delete exactly the asterisks. *)
Lemma remove_markdown_delete_char (s : str) :
  remove_markdown s = delete_char STAR s.
Proof.
  unfold remove_markdown.
  change (lit "*") with [STAR]. change (lit "**") with [STAR; STAR].
  by rewrite replace_char, delete_char_replace_pair.
Qed.

(** C10: the two passes of the source delete exactly the asterisks, and
    so do the same two passes in the other order. *)
Theorem remove_markdown_deletes_stars (s : str) :
  remove_markdown s = delete_char STAR s
  ∧ replace (lit "**") [] (replace (lit "*") [] s) = remove_markdown s.
Proof.
  split; [apply remove_markdown_delete_char|].
  rewrite remove_markdown_delete_char.
  change (lit "*") with [STAR]. change (lit "**") with [STAR; STAR].
  rewrite replace_char. apply replace_absent, delete_char_free.
Qed.

Lemma FALLBACK_plain :
  (STAR ∉ FALLBACK) ∧ forallb isspace FALLBACK = false.
Proof.
  split; [|vm_compute; reflexivity].
  assert (H : delete_char STAR FALLBACK = FALLBACK) by (vm_compute; reflexivity).
  rewrite <- H. apply delete_char_free.
Qed.

(** [clean] on a present text, in the specification's wording. *)
Lemma clean_as_spec (raw : str) : clean (Some raw) = clean_spec raw.
Proof.
  unfold clean, clean_spec. destruct raw as [|c raw]; [done|].
  cbn [truthy]. rewrite remove_markdown_delete_char.
  set (t := delete_char STAR (c :: raw)).
  destruct (forallb isspace t) eqn:E.
  - apply strip_nil in E. rewrite E. simpl. by rewrite orb_true_r.
  - destruct t as [|x t']; [done|]. simpl.
    destruct (strip (x :: t')) eqn:Es; [|done].
    apply strip_nil in Es. congruence.
Qed.

(** C7: on every provider text [clean] returns the text without its
    asterisks, or the fallback message when that is empty or white space
    only; an absent text gives the fallback too.  The result never holds
    an asterisk, and the three sample inputs give the stated outputs. *)
Theorem clean_strips_or_falls_back (raw : str) :
  clean (Some raw) = clean_spec raw
  ∧ (STAR ∉ clean (Some raw))
  ∧ clean None = FALLBACK
  ∧ clean (Some (lit "**Hello** *world*")) = lit "Hello world"
  ∧ clean (Some (lit "   ")) = FALLBACK
  ∧ clean (Some (lit "")) = FALLBACK.
Proof.
  split; [apply clean_as_spec|]. split; [|by vm_compute].
  rewrite clean_as_spec. unfold clean_spec.
  destruct (forallb _ _); [apply FALLBACK_plain | apply delete_char_free].
Qed.

End Sanitizer.

(** ** The query pipeline *)

Section Pipeline.



(** A body that is the array holding "query" passes the test of line 107
    and fails at the subscript inside the [try]: status 500, no provider
    call, the session unchanged. *)
Example array_body_is_caught :
  query_route (answering (lit "4") 10 1)
              (mkRequest true (Some (JArray [Some (lit "query")])))
              fresh_session
  = mkOutcome fresh_session
              (mkResponse (RuntimeErrorBody NotSubscriptable) 500) [].
Proof. vm_compute. reflexivity. Qed.


(** C4: when the provider call raises, the response is the error with
    status 500 and the session -- usage record and conversation log -- is
    the one before the call. *)
Theorem provider_failure_leaves_session (env : Env) (req : Request)
    (s : Session) (q e : str) :
  is_Some (conversation s) →
  query_of req = Some q →
  fst (check_rate_limit s) = true →
  provider env (conversation_messages s q) = Raises e →
  query_route env req s
  = mkOutcome s (mkResponse (ErrorBody (Some e)) 500)
              [conversation_messages s q].
Proof.
  intros Hlog Hq Hok Hfail. pass_gates Hlog Hq Hok. by rewrite Hfail.
Qed.

Lemma provider_failure_leaves_session_witness :
  let s := usage_session (lit "2024-01-02") 7 300 200 in
  let q := lit "What is 2+2?" in
  query_route (failing (lit "Connection error.")) (ask q) s
  = mkOutcome s (mkResponse (ErrorBody (Some (lit "Connection error."))) 500)
              [conversation_messages s q].
Proof.
  apply (provider_failure_leaves_session (failing (lit "Connection error."))
           (ask (lit "What is 2+2?"))
           (usage_session (lit "2024-01-02") 7 300 200)
           (lit "What is 2+2?") (lit "Connection error.")).
  - eexists. reflexivity.
  - vm_compute. reflexivity.
  - reflexivity.
  - reflexivity.
Defined.

(** C8: the messages sent to the provider are the system message, then a
    user and an assistant message per exchange of the window, in order,
    then the user message with the instruction prefix before the new
    query; on success the exchange appended to the log stores the query
    without the prefix, next to the cleaned response. *)
Theorem prompt_assembly_exact (env : Env) (req : Request) (s : Session)
    (log : list Exchange) (q : str) (c : Completion) :
  conversation s = Some log →
  query_of req = Some q →
  fst (check_rate_limit s) = true →
  provider env (conversation_messages s q) = Returns c →
  conversation_messages s q
  = mkMessage System SYSTEM_PROMPT
    :: history_spec (last_n 3 log)
    ++ [mkMessage User (INSTRUCTION_PREFIX ++ q)]
  ∧ provider_calls (query_route env req s) = [conversation_messages s q]
  ∧ length (conversation_messages s q) = (2 * length (last_n 3 log) + 2)%nat
  ∧ conversation (session_after (query_route env req s))
    = Some (append_exchange log
              (mkExchange q (clean (message_content c)) (now_iso env)))
  ∧ last (default [] (conversation (session_after (query_route env req s))))
    = Some (mkExchange q (clean (message_content c)) (now_iso env)).
Proof.
  intros Hlog Hq Hok Hans.
  assert (Hmsgs : conversation_messages s q
                  = build_spec SYSTEM_PROMPT (last_n 3 log) q).
  { rewrite conversation_messages_build. by rewrite Hlog. }
  split; [exact Hmsgs|].
  assert (Hlog' : is_Some (conversation s)) by (by rewrite Hlog).
  pose proof Hlog as Hlog0.
  pass_gates Hlog' Hq Hok. rewrite Hans.
  cbn -[conversation_messages track_usage append_exchange].
  rewrite track_usage_conversation, Hlog0.
  cbn -[conversation_messages track_usage append_exchange].
  split; [done|]. split; [|split; [done|apply append_exchange_last]].
  rewrite Hmsgs. unfold build_spec. cbn [length].
  rewrite length_app, history_spec_length. simpl. lia.
Qed.

Lemma prompt_assembly_exact_witness :
  let env := answering (lit "**4**") 10 1 in
  let log := map sample_exchange [1;2;3;4]%N in
  let s := mkSession (Some log) None None in
  let q := lit "What is 2+2?" in
  let e := mkExchange q (lit "4") (now_iso env) in
  conversation_messages s q
  = mkMessage System SYSTEM_PROMPT
    :: history_spec (last_n 3 log)
    ++ [mkMessage User (INSTRUCTION_PREFIX ++ q)]
  ∧ provider_calls (query_route env (ask q) s) = [conversation_messages s q]
  ∧ length (conversation_messages s q) = (2 * length (last_n 3 log) + 2)%nat
  ∧ conversation (session_after (query_route env (ask q) s))
    = Some (append_exchange log e)
  ∧ last (default [] (conversation (session_after (query_route env (ask q) s))))
    = Some e.
Proof.
  apply (prompt_assembly_exact (answering (lit "**4**") 10 1)
           (ask (lit "What is 2+2?"))
           (mkSession (Some (map sample_exchange [1;2;3;4]%N)) None None)
           (map sample_exchange [1;2;3;4]%N)
           (lit "What is 2+2?")
           (mkCompletion 10 1 11 (Some (lit "**4**")))).
  - reflexivity.
  - vm_compute. reflexivity.
  - reflexivity.
  - reflexivity.
Defined.

(** The end-to-end run of a first query. *)
Example first_query :
  let env := answering (lit "4") 10 1 in
  let o := query_route env (ask (lit "What is 2+2?")) fresh_session in
  response o
  = mkResponse (SuccessBody (lit "What is 2+2?") (lit "4") (lit "grok-4")
                            10 1 (Some 11) true) 200
  ∧ usage_today (session_after o) = Some (mkUsage (today env) 1 10 1)
  ∧ length (default [] (conversation (session_after o))) = 1%nat.
Proof. vm_compute. repeat split. Qed.

End Pipeline.

(** ** Further properties of the response clean-up *)

Section CleanMore.

Lemma delete_char_idem (x : N) (s : str) :
  delete_char x (delete_char x s) = delete_char x s.
Proof. apply delete_char_id, delete_char_free. Qed.

Lemma clean_spec_visible (raw : str) :
  forallb isspace (clean_spec raw) = false.
Proof.
  unfold clean_spec.
  destruct (forallb isspace (delete_char STAR raw)) eqn:E; [|done].
  apply FALLBACK_plain.
Qed.

Lemma clean_visible (c : option str) : forallb isspace (clean c) = false.
Proof.
  destruct c as [raw|]; [rewrite clean_as_spec; apply clean_spec_visible|].
  apply FALLBACK_plain.
Qed.

Lemma clean_star_free (c : option str) : STAR ∉ clean c.
Proof.
  destruct c as [raw|]; [|apply FALLBACK_plain].
  rewrite clean_as_spec. unfold clean_spec.
  destruct (forallb _ _); [apply FALLBACK_plain | apply delete_char_free].
Qed.

(** X1: whatever the provider sent -- nothing, an empty text, white
    space, markers only -- the cleaned text is never empty, never white
    space only, and holds no asterisk. *)
Theorem clean_never_blank (c : option str) :
  clean c ≠ []
  ∧ forallb isspace (clean c) = false
  ∧ strip (clean c) ≠ []
  ∧ (STAR ∉ clean c).
Proof.
  pose proof (clean_visible c) as Hv.
  split; [intros H; by rewrite H in Hv|].
  split; [done|]. split; [|apply clean_star_free].
  intros H. apply strip_nil in H. congruence.
Qed.

(** X2: cleaning is idempotent: a text that went through the clean-up,
    the fallback message included, comes out of a second pass unchanged. *)
Theorem clean_idempotent (c : option str) :
  clean (Some (clean c)) = clean c.
Proof.
  rewrite clean_as_spec. unfold clean_spec.
  rewrite (delete_char_id STAR (clean c)) by apply clean_star_free.
  by rewrite clean_visible.
Qed.

(** X3: the clean-up changes a text only by deleting asterisks: a text
    without asterisks that is not blank is returned as it is. *)
Theorem clean_keeps_plain_text (raw : str) :
  STAR ∉ raw →
  forallb isspace raw = false →
  clean (Some raw) = raw.
Proof.
  intros Hstar Hvis. rewrite clean_as_spec. unfold clean_spec.
  rewrite delete_char_id by done. by rewrite Hvis.
Qed.

Lemma clean_keeps_plain_text_witness :
  clean (Some (lit "2 + 2 = 4")) = lit "2 + 2 = 4".
Proof.
  apply (clean_keeps_plain_text (lit "2 + 2 = 4")).
  - apply (bool_decide_eq_true_1 (STAR ∉ lit "2 + 2 = 4")).
    vm_compute. reflexivity.
  - vm_compute. reflexivity.
Defined.

End CleanMore.

(** ** Further properties of usage tracking *)

Section UsageMore.

Lemma current_usage_date (today : str) (s : Session) :
  date (current_usage today s) = today.
Proof.
  unfold current_usage. destruct (usage_today s) as [u|]; [|done].
  by case_bool_decide.
Qed.

(** One recording, in terms of the view of the day. *)
Lemma track_usage_current (today : str) (p c : Z) (s : Session) :
  track_usage today p c s
  = mkSession (conversation s) (session_start s)
              (Some (add_usage (current_usage today s) 1 p c)).
Proof.
  unfold track_usage, current_usage, add_usage.
  destruct (usage_today s) as [u|] eqn:Hu; simpl.
  - rewrite Hu. simpl. destruct (decide (date u = today)) as [Heq|Hne].
    + rewrite bool_decide_eq_false_2 by (intros H; by apply H).
      by rewrite bool_decide_eq_true_2.
    + rewrite bool_decide_eq_true_2 by done.
      by rewrite bool_decide_eq_false_2.
  - rewrite bool_decide_eq_false_2 by (intros H; by apply H). done.
Qed.

Lemma current_usage_tracked (today : str) (p c : Z) (s : Session) :
  current_usage today (track_usage today p c s)
  = add_usage (current_usage today s) 1 p c.
Proof.
  rewrite track_usage_current. unfold current_usage at 1. simpl.
  by rewrite bool_decide_eq_true_2 by apply current_usage_date.
Qed.

Lemma track_all_current (today : str) (incs : list (Z * Z)) (s : Session) :
  current_usage today (track_all today incs s)
  = add_usage (current_usage today s) (Z.of_nat (length incs))
              (total (map fst incs)) (total (map snd incs)).
Proof.
  revert s. induction incs as [|[p c] incs IH]; intros s.
  - unfold add_usage. simpl. rewrite !Z.add_0_r. by destruct (current_usage today s).
  - change (track_all today ((p, c) :: incs) s)
      with (track_all today incs (track_usage today p c s)).
    rewrite IH, current_usage_tracked. unfold add_usage. simpl.
    f_equal; lia.
Qed.

Lemma track_all_frame (today : str) (incs : list (Z * Z)) (s : Session) :
  conversation (track_all today incs s) = conversation s
  ∧ session_start (track_all today incs s) = session_start s.
Proof.
  revert s. induction incs as [|[p c] incs IH]; intros s; [done|].
  change (track_all today ((p, c) :: incs) s)
    with (track_all today incs (track_usage today p c s)).
  destruct (IH (track_usage today p c s)) as [-> ->].
  by rewrite track_usage_current.
Qed.

(** X4: any non-empty sequence of recordings made on one day leaves a
    record dated that day whose counters are the number of recordings and
    the sums of the increments, added to the stored record when it was of
    that day and to zero when it was absent or of another day; the
    conversation and the session start are not touched. *)
Theorem track_all_accumulates (today : str) (p c : Z) (incs : list (Z * Z))
    (s : Session) :
  track_all today ((p, c) :: incs) s
  = mkSession (conversation s) (session_start s)
      (Some (add_usage (current_usage today s)
                       (1 + Z.of_nat (length incs))
                       (p + total (map fst incs))
                       (c + total (map snd incs)))).
Proof.
  revert p c s. induction incs as [|[p' c'] incs IH]; intros p c s.
  - change (track_all today [(p, c)] s) with (track_usage today p c s).
    rewrite track_usage_current. unfold add_usage. simpl.
    do 3 f_equal; lia.
  - change (track_all today ((p, c) :: (p', c') :: incs) s)
      with (track_all today ((p', c') :: incs) (track_usage today p c s)).
    rewrite IH, current_usage_tracked.
    rewrite (track_usage_current today p c s) at 1 2.
    unfold add_usage. cbn [conversation session_start date requests
                           prompt_tokens completion_tokens length map
                           total fold_right fst snd].
    do 3 f_equal; unfold total; lia.
Qed.

(** X5: the order in which the increments of a day are recorded does not
    matter for the stored record. *)
Theorem track_all_order_free (today : str) (incs1 incs2 : list (Z * Z))
    (s : Session) :
  incs1 ≡ₚ incs2 →
  track_all today incs1 s = track_all today incs2 s.
Proof.
  intros Hperm. revert s.
  induction Hperm as [|x l1 l2 _ IH|x y l|l1 l2 l3 _ IH1 _ IH2]; intros s.
  - done.
  - apply IH.
  - change (track_all today (y :: x :: l) s)
      with (track_all today l (track_usage today (fst x) (snd x)
                                 (track_usage today (fst y) (snd y) s))).
    change (track_all today (x :: y :: l) s)
      with (track_all today l (track_usage today (fst y) (snd y)
                                 (track_usage today (fst x) (snd x) s))).
    f_equal. rewrite !track_usage_current. simpl. f_equal. f_equal.
    unfold current_usage at 1 3. simpl.
    rewrite !bool_decide_eq_true_2 by apply current_usage_date.
    unfold add_usage. simpl. f_equal; lia.
  - by rewrite IH1, IH2.
Qed.

Lemma track_all_order_free_witness :
  track_all (lit "2024-01-02") [(10, 1); (20, 2); (30, 3)] fresh_session
  = track_all (lit "2024-01-02") [(30, 3); (10, 1); (20, 2)] fresh_session.
Proof.
  apply (track_all_order_free (lit "2024-01-02")
           [(10, 1); (20, 2); (30, 3)] [(30, 3); (10, 1); (20, 2)]
           fresh_session).
  symmetry. apply (Permutation_cons_append [(10, 1); (20, 2)] (30, 3)).
Defined.

End UsageMore.

(** ** Further properties of prompt assembly *)

Section PromptMore.

Lemma history_spec_roles (es : list Exchange) :
  map role (history_spec es)
  = concat (replicate (length es) [User; Assistant]).
Proof. induction es as [|e es IH]; simpl; by rewrite ?IH. Qed.

(** X6: the roles of the messages sent to the provider are the system
    role, then user and assistant in alternation, once per exchange of
    the window, then user; there are at most three such pairs, so at most
    eight messages, however long the log is. *)
Theorem roles_alternate (s : Session) (q : str) :
  map role (conversation_messages s q)
  = System
    :: concat (replicate (Nat.min 3 (length (default [] (conversation s))))
                         [User; Assistant])
    ++ [User]
  ∧ (2 ≤ length (conversation_messages s q) ≤ 8)%nat.
Proof.
  rewrite conversation_messages_build. unfold build_spec.
  cbn [map length]. rewrite map_app, length_app, history_spec_roles.
  rewrite history_spec_length, last_n_length. split; [done|].
  cbn [length]. lia.
Qed.

(** X7: only the query and response texts of the last three exchanges
    reach the provider: exchanges before them, and all time stamps, leave
    the assembled messages unchanged. *)
Theorem prompt_ignores_older (s : Session) (older recent : list Exchange)
    (stamps : list str) (q : str) :
  length recent = 3%nat →
  length stamps = 3%nat →
  conversation_messages (set_conversation (older ++ recent) s) q
  = conversation_messages
      (set_conversation
         (zip_with (fun e t => mkExchange (user e) (grok e) t) recent stamps)
         s) q.
Proof.
  intros Hr Hs. rewrite !conversation_messages_build. simpl.
  assert (H1 : last_n 3 (older ++ recent) = recent).
  { unfold last_n. rewrite length_app, Hr.
    replace (length older + 3 - 3)%nat with (length older) by lia.
    by rewrite drop_app_length. }
  rewrite H1.
  destruct recent as [|e1 [|e2 [|e3 [|]]]]; try discriminate.
  destruct stamps as [|t1 [|t2 [|t3 [|]]]]; try discriminate.
  reflexivity.
Qed.

Lemma prompt_ignores_older_witness :
  let s := fresh_session in
  let q := lit "What is 2+2?" in
  conversation_messages
    (set_conversation (map sample_exchange [1;2]%N
                       ++ map sample_exchange [3;4;5]%N) s) q
  = conversation_messages
      (set_conversation
         (zip_with (fun e t => mkExchange (user e) (grok e) t)
                   (map sample_exchange [3;4;5]%N)
                   [lit "a"; lit "b"; lit "c"])
         s) q.
Proof.
  apply (prompt_ignores_older fresh_session
           (map sample_exchange [1;2]%N) (map sample_exchange [3;4;5]%N)
           [lit "a"; lit "b"; lit "c"] (lit "What is 2+2?"));
    reflexivity.
Defined.

End PromptMore.

(** ** Further properties of the routes *)

Section RoutesMore.

(** X8: [home] creates the conversation state only when it is absent: it
    never discards a log, a session start or a usage record, and a second
    visit changes nothing. *)
Theorem home_keeps_state (env env' : Env) (s : Session) :
  conversation (home env s) = Some (default [] (conversation s))
  ∧ session_start (home env s)
    = match conversation s with
      | Some _ => session_start s
      | None => Some (now_iso env)
      end
  ∧ usage_today (home env s) = usage_today s
  ∧ home env' (home env s) = home env s.
Proof.
  unfold home. destruct (conversation s) as [log|] eqn:Hlog; simpl;
    rewrite ?Hlog; done.
Qed.

(** What [query_route] does to a session it accepts. *)
Lemma query_route_served (env : Env) (req : Request) (s : Session)
    (log : list Exchange) (q : str) (c : Completion) :
  conversation s = Some log →
  query_of req = Some q →
  fst (check_rate_limit s) = true →
  provider env (conversation_messages s q) = Returns c →
  query_route env req s
  = mkOutcome
      (set_conversation
         (append_exchange log
            (mkExchange q (clean (message_content c)) (now_iso env)))
         (track_usage (today env) (usage_prompt_tokens c)
                      (usage_completion_tokens c) s))
      (mkResponse
         (SuccessBody q (clean (message_content c)) (lit "grok-4")
                      (usage_prompt_tokens c) (usage_completion_tokens c)
                      (Some (usage_total_tokens c)) true) 200)
      [conversation_messages s q].
Proof.
  intros Hlog Hq Hok Hans.
  assert (Hactive : is_Some (conversation s)) by (by rewrite Hlog).
  pass_gates Hactive Hq Hok. rewrite Hans. unfold Returns.
  cbn [answer_usage answer_choices reported_prompt_tokens
       reported_completion_tokens reported_total_tokens].
  by rewrite track_usage_conversation, Hlog.
Qed.

(** The record a recording leaves when an increment is [None]. *)
Lemma track_usage_partial_current (today : str) (prompt completion : option Z)
    (s : Session) :
  fst (track_usage_partial today prompt completion s)
  = mkSession (conversation s) (session_start s)
      (Some (add_usage (current_usage today s) 1
               (default 0 prompt)
               (match prompt with
                | Some _ => default 0 completion
                | None => 0
                end))).
Proof.
  assert (Hfull : ∀ p c, track_usage today p c s
                         = mkSession (conversation s) (session_start s)
                             (Some (add_usage (current_usage today s) 1 p c)))
    by (intros; apply track_usage_current).
  unfold track_usage in Hfull. unfold track_usage_partial.
  destruct prompt as [p|]; [destruct completion as [c|]|];
    cbn [fst default from_option id].
  - apply Hfull.
  - rewrite <- (Hfull p 0). cbn [requests prompt_tokens completion_tokens date].
    by rewrite Z.add_0_r.
  - rewrite <- (Hfull 0 0). by rewrite !Z.add_0_r.
Qed.

(** On two integers the recording returns, with the session of
    [track_usage]. *)
Lemma track_usage_partial_total (today : str) (p c : Z) (s : Session) :
  track_usage_partial today (Some p) (Some c) s
  = (track_usage today p c s, true).
Proof. done. Qed.

(** Every way a request can end: refused before any effect; failed with
    the session as it was after the provider was called; failed after the
    usage record was written; served. *)
Lemma query_route_cases (env : Env) (req : Request) (s : Session) :
  (∃ b code,
      query_route env req s = mkOutcome s (mkResponse b code) []
      ∧ ((conversation s = None ∧ code = 440)
         ∨ (is_Some (conversation s)
            ∧ (code = 400
               ∨ (code = 429 ∧ fst (check_rate_limit s) = false)
               ∨ code = 500))))
  ∨ ∃ log q,
      conversation s = Some log
      ∧ query_of req = Some q
      ∧ fst (check_rate_limit s) = true
      ∧ ((∃ b, query_route env req s
               = mkOutcome s (mkResponse b 500) [conversation_messages s q])
         ∨ (∃ b dp dc,
               reported_by env (conversation_messages s q) dc
               ∧ query_route env req s
                 = mkOutcome
                     (mkSession (Some log) (session_start s)
                        (Some (add_usage (current_usage (today env) s)
                                         1 dp dc)))
                     (mkResponse b 500) [conversation_messages s q])
         ∨ (∃ p c t content,
               reported_by env (conversation_messages s q) c
               ∧ query_route env req s
                 = mkOutcome
                     (set_conversation
                        (append_exchange log
                           (mkExchange q (clean content) (now_iso env)))
                        (track_usage (today env) p c s))
                     (mkResponse
                        (SuccessBody q (clean content) (lit "grok-4")
                                     p c t true) 200)
                     [conversation_messages s q])).
Proof.
  unfold query_route, query_of.
  destruct (conversation s) as [log|] eqn:Hlog;
    [|left; eexists _, _; split; [done|by left]].
  assert (Hactive : is_Some (Some log)) by done.
  assert (Hrefuse : ∀ b code (calls : list (list Message)),
             calls = [] →
             (code = 400 ∨ (code = 429 ∧ fst (check_rate_limit s) = false)
              ∨ code = 500) →
             ∃ b' code',
               mkOutcome s (mkResponse b code) calls
               = mkOutcome s (mkResponse b' code') []
               ∧ ((Some log = None ∧ code' = 440)
                  ∨ (is_Some (Some log)
                     ∧ (code' = 400
                        ∨ (code' = 429 ∧ fst (check_rate_limit s) = false)
                        ∨ code' = 500)))).
  { intros b code calls -> Hcode. exists b, code. split; [done|]. by right. }
  destruct (is_json req); cbn [negb];
    [|left; apply Hrefuse; auto].
  destruct (get_json req) as [data|]; [|left; apply Hrefuse; auto].
  destruct (payload_truthy data) eqn:Htruthy; cbn [negb];
    [|left; apply Hrefuse; auto].
  destruct data as [|truth|text|items|fields]; cbn [has_query subscript_query];
    try (left; apply Hrefuse; auto; fail).
  - destruct (contains (lit "query") text); [|left; apply Hrefuse; auto].
    destruct (check_rate_limit s) as [[] msg] eqn:Hc; cbn [negb];
      left; apply Hrefuse; auto.
  - case_bool_decide; [|left; apply Hrefuse; auto].
    destruct (check_rate_limit s) as [[] msg] eqn:Hc; cbn [negb];
      left; apply Hrefuse; auto.
  - case_bool_decide as Hkey; [|left; apply Hrefuse; auto].
    destruct Hkey as [q Hq]. rewrite Hq.
    destruct (check_rate_limit s) as [[] msg] eqn:Hc; cbn [negb];
      [|left; apply Hrefuse; auto].
    right. exists log, q. split; [done|]. split; [done|]. split; [done|].
    destruct (provider env (conversation_messages s q)) as [e|a] eqn:Hp;
      [left; by eexists|].
    destruct (answer_usage a) as [u|] eqn:Hu; [|left; by eexists].
    destruct (reported_prompt_tokens u) as [p|] eqn:Hpt.
    + destruct (reported_completion_tokens u) as [c|] eqn:Hct.
      * assert (Hrep : reported_by env (conversation_messages s q) c).
        { right. by exists a, u. }
        destruct (answer_choices a) as [|[content|] rest].
        -- right. left. eexists _, p, c. split; [done|].
           by rewrite track_usage_current, Hlog.
        -- right. right. exists p, c, (reported_total_tokens u), content.
           split; [done|]. by rewrite track_usage_conversation, Hlog.
        -- right. left. eexists _, p, c. split; [done|].
           by rewrite track_usage_current, Hlog.
      * right. left. eexists _, p, 0. split; [by left|].
        by rewrite track_usage_partial_current, Hlog.
    + right. left. eexists _, 0, 0. split; [by left|].
      by rewrite track_usage_partial_current, Hlog.
Qed.

(** X9: every request ends in one of four ways.  With status 440, 400 or
    429 the provider is not called and the session is unchanged.  With
    status 500 either the provider was not called and the session is
    unchanged, or it was called once and the log and the session start
    are unchanged (the usage record may have been written, when the
    failure came after the answer).  With status 200 the provider was
    called once. *)
Theorem query_route_outcomes (env : Env) (req : Request) (s : Session) :
  let o := query_route env req s in
  ((status (response o) = 440 ∨ status (response o) = 400
    ∨ status (response o) = 429)
   ∧ provider_calls o = [] ∧ session_after o = s)
  ∨ (status (response o) = 500
     ∧ provider_calls o = [] ∧ session_after o = s)
  ∨ (status (response o) = 500
     ∧ length (provider_calls o) = 1%nat
     ∧ conversation (session_after o) = conversation s
     ∧ session_start (session_after o) = session_start s)
  ∨ (status (response o) = 200 ∧ length (provider_calls o) = 1%nat).
Proof.
  intros o. subst o.
  destruct (query_route_cases env req s)
    as [(b & code & Heq & Hcode)|(log & q & Hlog & _ & _ & H)].
  - rewrite Heq. cbn [response status provider_calls session_after].
    destruct Hcode as [[_ ->] | [_ [-> | [[-> _] | ->]]]]; auto 7.
  - destruct H as [[b Heq]|[(b & dp & dc & _ & Heq)|(p & c & t & content & _ & Heq)]];
      rewrite Heq;
      cbn [response status provider_calls session_after length
           conversation session_start set_conversation];
      rewrite ?track_usage_current;
      cbn [conversation session_start].
    + right. right. left. auto.
    + right. right. left. auto.
    + right. right. right. auto.
Qed.

(** X10: [session_status] reports the session inactive exactly when a
    query would be answered with status 440, whatever the request; the
    count it reports is the length of the log. *)
Theorem status_active_iff (env : Env) (req : Request) (s : Session) :
  (active (session_status s) = false
   ↔ status (response (query_route env req s)) = 440)
  ∧ conversation_count (session_status s)
    = Z.of_nat (length (default [] (conversation s))).
Proof.
  split; [|done].
  unfold session_status. cbn [active].
  destruct (query_route_cases env req s)
    as [(b & code & Heq & Hcode)|(log & q & Hlog & _ & _ & H)].
  - rewrite Heq. cbn [response status].
    destruct Hcode as [[Hnone ->]|[Hsome Hcode]].
    + rewrite Hnone. by rewrite bool_decide_eq_false_2 by (by intros [? ?]).
    + rewrite bool_decide_eq_true_2 by done.
      split; [done|]. intros ->. by destruct Hcode as [?|[[? _]|?]].
  - rewrite Hlog, bool_decide_eq_true_2 by done. split; [done|].
    by destruct H as [[b Heq]|[(b & dp & dc & _ & Heq)|(p & c & t & content & _ & Heq)]];
      rewrite Heq.
Qed.

End RoutesMore.

(** ** Sessions driven through sequences of requests *)

Section Runs.

Lemma run_cons (env : Env) (call : Call) (calls : list (Env * Call))
    (s : Session) :
  run ((env, call) :: calls) s = run calls (step env call s).
Proof. done. Qed.

Lemma run_snoc (env : Env) (call : Call) (calls : list (Env * Call))
    (s : Session) :
  run (calls ++ [(env, call)]) s = step env call (run calls s).
Proof. unfold run. by rewrite fold_left_app. Qed.

(** A property kept by every step holds along every run. *)
Lemma run_invariant (P : Session → Prop) (calls : list (Env * Call))
    (s : Session) :
  (∀ env call s, P s → P (step env call s)) →
  P s → P (run calls s).
Proof.
  intros Hstep. revert s.
  induction calls as [|[env call] calls IH]; intros s Hs; [done|].
  rewrite run_cons. by apply IH, Hstep.
Qed.

(** What a step can do to the session: nothing, clear it, create the
    conversation state, or -- past the rate limit -- write the usage
    record, with or without an exchange appended to the log. *)
Lemma step_cases (env : Env) (call : Call) (s : Session) :
  step env call s = s
  ∨ step env call s = empty_session
  ∨ (conversation s = None
     ∧ step env call s
       = mkSession (Some []) (Some (now_iso env)) (usage_today s))
  ∨ ∃ log q dp dc,
      conversation s = Some log
      ∧ fst (check_rate_limit s) = true
      ∧ reported_by env (conversation_messages s q) dc
      ∧ (step env call s
         = mkSession (Some log) (session_start s)
             (Some (add_usage (current_usage (today env) s) 1 dp dc))
         ∨ ∃ content,
             step env call s
             = mkSession
                 (Some (append_exchange log
                          (mkExchange q (clean content) (now_iso env))))
                 (session_start s)
                 (Some (add_usage (current_usage (today env) s) 1 dp dc))).
Proof.
  destruct call as [|req| |]; simpl.
  - unfold home. destruct (conversation s) eqn:H; [by left|].
    right. right. by left.
  - destruct (query_route_cases env req s)
      as [(b & code & Heq & _)|(log & q & Hlog & _ & Hok & H)];
      [rewrite Heq; by left|].
    destruct H as [[b Heq]|[(b & dp & dc & Hrep & Heq)|(p & c & t & content & Hrep & Heq)]];
      rewrite Heq.
    + by left.
    + right. right. right. exists log, q, dp, dc. auto.
    + right. right. right. exists log, q, p, c.
      split; [done|]. split; [done|]. split; [done|].
      right. exists content. cbn [session_after].
      by rewrite track_usage_current.
  - by left.
  - right. by left.
Qed.

Lemma allowed_bounds (s : Session) :
  fst (check_rate_limit s) = true →
  usage_get requests (usage_today s) ≤ 50
  ∧ usage_get completion_tokens (usage_today s) ≤ 25000.
Proof.
  intros Hok.
  destruct (decide (50 < usage_get requests (usage_today s)
                    ∨ 25000 < usage_get completion_tokens (usage_today s)))
    as [Hover|Hin]; [|lia].
  apply check_rate_limit_denies in Hover. congruence.
Qed.

(** X11: a served request is recorded as answered: the response echoes
    the query as sent, its text is the one stored in the last entry of
    the log, and the usage record is the view of the day plus one request
    and the token counts the response reports. *)
Theorem served_is_recorded (env : Env) (req : Request) (s : Session) :
  status (response (query_route env req s)) = 200 →
  ∃ q r p c t,
    query_of req = Some q
    ∧ body (response (query_route env req s))
      = SuccessBody q r (lit "grok-4") p c t true
    ∧ last (default [] (conversation (session_after (query_route env req s))))
      = Some (mkExchange q r (now_iso env))
    ∧ usage_today (session_after (query_route env req s))
      = Some (add_usage (current_usage (today env) s) 1 p c)
    ∧ session_start (session_after (query_route env req s))
      = session_start s.
Proof.
  intros H200.
  destruct (query_route_cases env req s)
    as [(b & code & Heq & Hcode)|(log & q & Hlog & Hq & _ & H)].
  - rewrite Heq in H200. cbn [response status] in H200. subst code.
    by destruct Hcode as [[_ ?]|[_ [?|[[? _]|?]]]].
  - destruct H as [[b Heq]|[(b & dp & dc & _ & Heq)|(p & c & t & content & _ & Heq)]];
      rewrite Heq in H200 |- *; try done.
    exists q, (clean content), p, c, t.
    cbn [response body session_after]. rewrite track_usage_current.
    cbn [set_conversation conversation usage_today session_start default
         from_option id].
    split; [done|]. split; [done|]. split; [apply append_exchange_last|done].
Qed.

Lemma served_is_recorded_witness :
  let env := answering (lit "**4**") 10 1 in
  let req := ask (lit "What is 2+2?") in
  let s := usage_session (lit "2024-01-01") 7 300 200 in
  ∃ q r p c t,
    query_of req = Some q
    ∧ body (response (query_route env req s))
      = SuccessBody q r (lit "grok-4") p c t true
    ∧ last (default [] (conversation (session_after (query_route env req s))))
      = Some (mkExchange q r (now_iso env))
    ∧ usage_today (session_after (query_route env req s))
      = Some (add_usage (current_usage (today env) s) 1 p c)
    ∧ session_start (session_after (query_route env req s))
      = session_start s.
Proof.
  apply (served_is_recorded (answering (lit "**4**") 10 1)
           (ask (lit "What is 2+2?"))
           (usage_session (lit "2024-01-01") 7 300 200)).
  vm_compute. reflexivity.
Defined.

(** X12: clearing the session clears the quota with it: after
    [clear_session] and a visit of [home], whatever the usage record was,
    there is no record, the rate limit lets the request through and the
    provider is called. *)
Theorem clearing_resets_quota (env env' : Env) (req : Request) (q : str)
    (s : Session) :
  query_of req = Some q →
  let s' := home env (clear_session s) in
  s' = mkSession (Some []) (Some (now_iso env)) None
  ∧ check_rate_limit s' = (true, None)
  ∧ provider_calls (query_route env' req s') = [conversation_messages s' q].
Proof.
  intros Hq s'. split; [done|]. split; [done|].
  assert (Hactive : is_Some (conversation s')) by (by eexists).
  assert (Hok : fst (check_rate_limit s') = true) by done.
  pass_gates Hactive Hq Hok.
  destruct (provider env' _) as [e|a]; [done|].
  destruct (answer_usage a) as [u|]; [|done].
  destruct (reported_prompt_tokens u), (reported_completion_tokens u);
    try done.
  by destruct (answer_choices a) as [|[content|] rest].
Qed.

Lemma clearing_resets_quota_witness :
  let env := answering (lit "4") 10 1 in
  let s' := home env (clear_session (usage_session (lit "2024-01-02") 51 900 700)) in
  s' = mkSession (Some []) (Some (now_iso env)) None
  ∧ check_rate_limit s' = (true, None)
  ∧ provider_calls (query_route env (ask (lit "What is 2+2?")) s')
    = [conversation_messages s' (lit "What is 2+2?")].
Proof.
  apply (clearing_resets_quota (answering (lit "4") 10 1)
           (answering (lit "4") 10 1) (ask (lit "What is 2+2?"))
           (lit "What is 2+2?")
           (usage_session (lit "2024-01-02") 51 900 700)).
  vm_compute. reflexivity.
Defined.

(** X13: a session that is over a limit stays exactly as it is under any
    sequence of visits, queries and status reads, on whatever days they
    are made: only [clear_session] ends the denial. *)
Theorem denied_until_cleared (calls : list (Env * Call)) (s : Session) :
  is_Some (conversation s) →
  fst (check_rate_limit s) = false →
  Forall (fun ec => snd ec ≠ ClearSession) calls →
  run calls s = s.
Proof.
  intros Hactive Hdenied Hcalls.
  induction Hcalls as [|[env call] calls Hcall _ IH]; [done|].
  rewrite run_cons.
  assert (Hstep : step env call s = s); [|by rewrite Hstep].
  destruct (step_cases env call s)
    as [H|[H|[[H _]|(log & q & dp & dc & _ & Hok & _)]]].
  - done.
  - destruct call as [|req| |]; simpl in *; try done.
    + unfold home. by destruct Hactive as [log ->].
    + destruct (query_route_cases env req s)
        as [(b & code & Heq & _)|(? & ? & _ & _ & Hok & _)];
        [by rewrite Heq|].
      congruence.
  - destruct Hactive as [log Hlog]. congruence.
  - congruence.
Qed.

Lemma denied_until_cleared_witness :
  let s := usage_session (lit "2024-01-01") 51 900 700 in
  let day2 := answering (lit "4") 10 1 in
  let day3 := mkEnv (lit "2024-01-03") (lit "2024-01-03T08:00:00")
                    (provider day2) in
  run [(day2, Query (ask (lit "What is 2+2?"))); (day2, Home);
       (day3, SessionStatus); (day3, Query (ask (lit "And 3+3?")))] s
  = s.
Proof.
  apply (denied_until_cleared
           [(answering (lit "4") 10 1, Query (ask (lit "What is 2+2?")));
            (answering (lit "4") 10 1, Home);
            (mkEnv (lit "2024-01-03") (lit "2024-01-03T08:00:00")
                   (provider (answering (lit "4") 10 1)), SessionStatus);
            (mkEnv (lit "2024-01-03") (lit "2024-01-03T08:00:00")
                   (provider (answering (lit "4") 10 1)),
             Query (ask (lit "And 3+3?")))]
           (usage_session (lit "2024-01-01") 51 900 700)).
  - eexists. reflexivity.
  - reflexivity.
  - repeat constructor; discriminate.
Defined.

End Runs.

(** ** Invariants of every session the routes can produce *)

Section Invariants.

Lemma step_requests_in_range (env : Env) (call : Call) (s : Session) :
  requests_in_range s → requests_in_range (step env call s).
Proof.
  intros Hs.
  destruct (step_cases env call s)
    as [->|[->|[[_ ->]|(log & q & dp & dc & _ & Hok & _ & H)]]];
    try done.
  apply allowed_bounds in Hok as [Hreq _].
  assert (Hgoal : 1 ≤ requests (add_usage (current_usage (today env) s) 1 dp dc)
                  ≤ 51).
  { unfold requests_in_range in Hs. unfold usage_get in Hreq.
    unfold current_usage, add_usage. cbn [requests].
    destruct (usage_today s) as [u|]; [|simpl; lia].
    case_bool_decide; simpl; lia. }
  by destruct H as [->|[content ->]].
Qed.

Lemma step_log_in_shape (env : Env) (call : Call) (s : Session) :
  log_in_shape s → log_in_shape (step env call s).
Proof.
  intros [Hlen Hall].
  destruct (step_cases env call s)
    as [->|[->|[[_ ->]|(log & q & dp & dc & Hlog & _ & _ & H)]]];
    try done.
  - split; [simpl; lia|constructor].
  - split; [simpl; lia|constructor].
  - rewrite Hlog in Hlen, Hall. cbn [default from_option id] in Hlen, Hall.
    destruct H as [->|[content ->]]; [done|].
    unfold log_in_shape. cbn [conversation default from_option id].
    unfold append_exchange. split.
    + rewrite last_n_length. lia.
    + apply Forall_drop, Forall_app. split; [done|].
      constructor; [|constructor]. simpl.
      split; [apply clean_star_free | apply clean_visible].
Qed.

Lemma step_started (env : Env) (call : Call) (s : Session) :
  started s → started (step env call s).
Proof.
  intros Hs.
  destruct (step_cases env call s)
    as [->|[->|[[_ ->]|(log & q & dp & dc & Hlog & _ & _ & H)]]];
    try done.
  - by left.
  - right. by eexists.
  - destruct Hs as [Hs|Hs]; [congruence|].
    by destruct H as [->|[content ->]]; right.
Qed.

(** X14: however a session is driven from its creation, its usage record
    never counts more than 51 requests (and at least one when it exists):
    51, not 50, is the number of requests the strict comparison admits.
    This covers the requests that fail after the usage was recorded. *)
Theorem requests_never_exceed_51 (calls : list (Env * Call)) :
  match usage_today (run calls empty_session) with
  | Some u => 1 ≤ requests u ≤ 51
  | None => True
  end
  ∧ usage_get requests (usage_today (run calls empty_session)) ≤ 51.
Proof.
  assert (H : requests_in_range (run calls empty_session)).
  { apply run_invariant; [apply step_requests_in_range|done]. }
  split; [exact H|]. unfold requests_in_range, usage_get in *.
  destruct (usage_today _); lia.
Qed.

(** X15: however a session is driven from its creation, its log never
    holds more than ten exchanges, [session_status] never reports more,
    and every stored response is free of asterisks and not blank. *)
Theorem log_always_in_shape (calls : list (Env * Call)) :
  let s := run calls empty_session in
  (length (default [] (conversation s)) ≤ 10)%nat
  ∧ 0 ≤ conversation_count (session_status s) ≤ 10
  ∧ Forall (fun e => (STAR ∉ grok e) ∧ forallb isspace (grok e) = false)
           (default [] (conversation s)).
Proof.
  intros s.
  assert (H : log_in_shape s).
  { apply run_invariant; [apply step_log_in_shape|].
    split; [simpl; lia|constructor]. }
  destruct H as [Hlen Hall]. split; [done|]. split; [|done].
  unfold session_status. simpl. lia.
Qed.

(** X16: however a session is driven from its creation, an active
    session has its start recorded, so [session_status] reports the
    stored start and not its default. *)
Theorem active_session_has_start (calls : list (Env * Call)) :
  let s := run calls empty_session in
  (active (session_status s) = false
   ∨ ∃ t, session_start s = Some t
          ∧ reported_session_start (session_status s) = t).
Proof.
  intros s.
  assert (H : started s).
  { apply run_invariant; [apply step_started|by left]. }
  destruct H as [H|[t H]].
  - left. unfold session_status. simpl. rewrite H.
    by rewrite bool_decide_eq_false_2 by (by intros [? ?]).
  - right. exists t. split; [done|]. unfold session_status. simpl.
    by rewrite H.
Qed.

(** X17: when no answer reports more than [cap] completion tokens, the
    completion tokens on record never exceed the limit by more than
    [cap]: the check precedes the call, so the last admitted request can
    overshoot, but only once.  This covers the requests that fail after
    the usage was recorded. *)
Theorem tokens_overshoot_bounded (cap : Z) (calls : list (Env * Call)) :
  0 ≤ cap →
  Forall (fun ec => ∀ m a u c,
            provider (fst ec) m = Answers a →
            answer_usage a = Some u →
            reported_completion_tokens u = Some c →
            c ≤ cap) calls →
  usage_get completion_tokens (usage_today (run calls empty_session))
  ≤ 25000 + cap.
Proof.
  intros Hcap Hcalls.
  assert (H0 : usage_get completion_tokens (usage_today empty_session)
               ≤ 25000 + cap) by (simpl; lia).
  revert H0. generalize empty_session.
  induction Hcalls as [|[env call] calls Hcall _ IH]; intros s Hs; [done|].
  rewrite run_cons. apply IH.
  destruct (step_cases env call s)
    as [->|[->|[[_ ->]|(log & q & dp & dc & _ & Hok & Hrep & H)]]];
    try done; [simpl; lia|].
  apply allowed_bounds in Hok as [_ Htok].
  assert (Hdc : dc ≤ cap).
  { destruct Hrep as [->|(a & u & Ha & Hu & Hc)]; [done|].
    by apply (Hcall _ a u dc Ha Hu). }
  assert (Hgoal : completion_tokens
                    (add_usage (current_usage (today env) s) 1 dp dc)
                  ≤ 25000 + cap).
  { unfold usage_get in Htok. unfold current_usage, add_usage.
    cbn [completion_tokens].
    destruct (usage_today s) as [u|]; [|simpl; lia].
    case_bool_decide; simpl; lia. }
  by destruct H as [->|[content ->]].
Qed.

Lemma tokens_overshoot_bounded_witness :
  usage_get completion_tokens
    (usage_today
       (run [(answering (lit "4") 10 1200, Home);
             (answering (lit "4") 10 1200, Query (ask (lit "What is 2+2?")));
             (answering (lit "6") 12 900, Query (ask (lit "And 3+3?")))]
            empty_session))
  ≤ 25000 + 1200.
Proof.
  apply (tokens_overshoot_bounded 1200
           [(answering (lit "4") 10 1200, Home);
            (answering (lit "4") 10 1200, Query (ask (lit "What is 2+2?")));
            (answering (lit "6") 12 900, Query (ask (lit "And 3+3?")))]).
  - lia.
  - repeat constructor; intros m a u c [= <-] [= <-] [= <-]; lia.
Defined.

(** A request that fails after the usage was recorded: the answer has no
    choice, the status is 500, and the request is counted. *)
Example counted_though_failed :
  let env := mkEnv (lit "2024-01-02") (lit "2024-01-02T10:30:00")
               (fun _ => Answers
                  (mkAnswer (Some (mkUsageFigures (Some 10) (Some 1) (Some 11)))
                            [])) in
  let o := query_route env (ask (lit "What is 2+2?")) fresh_session in
  status (response o) = 500
  ∧ usage_today (session_after o) = Some (mkUsage (today env) 1 10 1)
  ∧ conversation (session_after o) = Some [].
Proof. vm_compute. repeat split. Qed.

(** A token count that is [None]: the request is counted, the tokens
    before the missing one are added, and the answer is 500. *)
Example counted_without_tokens :
  let env := mkEnv (lit "2024-01-02") (lit "2024-01-02T10:30:00")
               (fun _ => Answers
                  (mkAnswer (Some (mkUsageFigures (Some 10) None None))
                            [Some (Some (lit "4"))])) in
  let o := query_route env (ask (lit "What is 2+2?"))
                       (usage_session (lit "2024-01-02") 7 300 200) in
  status (response o) = 500
  ∧ usage_today (session_after o) = Some (mkUsage (today env) 8 310 200)
  ∧ conversation (session_after o) = Some [].
Proof. vm_compute. repeat split. Qed.

(** A body that is a number is not caught: Flask answers 500, and
    nothing is called or written. *)
Example number_body_is_unhandled :
  query_route (answering (lit "4") 10 1)
              (mkRequest true (Some (JScalar true))) fresh_session
  = mkOutcome fresh_session (mkResponse FrameworkPage 500) [].
Proof. vm_compute. reflexivity. Qed.

End Invariants.

(** ** The number of requests served in a day *)

Section DailyQuota.

Lemma allowed_when_within (s : Session) :
  usage_get requests (usage_today s) ≤ 50 →
  usage_get completion_tokens (usage_today s) ≤ 25000 →
  fst (check_rate_limit s) = true.
Proof.
  intros Hr Ht. destruct (fst (check_rate_limit s)) eqn:E; [done|].
  apply check_rate_limit_denies in E. lia.
Qed.

(** The record after [S n] queries served on one day. *)
Lemma served_in_a_row (env : Env) (cpl : Completion) (q : str)
    (s : Session) (n : nat) :
  is_Some (conversation s) →
  usage_today s = None →
  (∀ m, provider env m = Returns cpl) →
  0 ≤ usage_completion_tokens cpl ≤ 500 →
  (S n ≤ 51)%nat →
  is_Some (conversation (run (replicate (S n) (env, Query (ask q))) s))
  ∧ usage_today (run (replicate (S n) (env, Query (ask q))) s)
    = Some (mkUsage (today env) (Z.of_nat (S n))
                    (Z.of_nat (S n) * usage_prompt_tokens cpl)
                    (Z.of_nat (S n) * usage_completion_tokens cpl)).
Proof.
  intros [log Hlog] Hnone Hprov Hct. induction n as [|n IH]; intros Hn.
  - change (run (replicate 1 (env, Query (ask q))) s)
      with (session_after (query_route env (ask q) s)).
    rewrite (query_route_served env (ask q) s log q cpl);
      [|done|apply query_of_ask| |apply Hprov].
    + rewrite track_usage_current. unfold current_usage. rewrite Hnone.
      split; [by eexists|]. unfold add_usage. simpl. do 2 f_equal; lia.
    + apply allowed_when_within; rewrite Hnone; simpl; lia.
  - destruct IH as [[logn Hlogn] Hun]; [lia|].
    rewrite replicate_S_end, run_snoc.
    set (sn := run (replicate (S n) (env, Query (ask q))) s) in *.
    change (step env (Query (ask q)) sn)
      with (session_after (query_route env (ask q) sn)).
    rewrite (query_route_served env (ask q) sn logn q cpl);
      [|done|apply query_of_ask| |apply Hprov].
    + rewrite track_usage_current. unfold current_usage. rewrite Hun.
      cbn [date]. rewrite bool_decide_eq_true_2 by done.
      split; [by eexists|]. unfold add_usage.
      cbn [session_after set_conversation usage_today date requests
           prompt_tokens completion_tokens].
      do 2 f_equal; lia.
    + apply allowed_when_within; rewrite Hun; simpl; nia.
Qed.

(** With 51 requests on record a query is refused. *)
Lemma refused_at_51 (env : Env) (q : str) (s : Session)
    (log : list Exchange) (day : str) (p c : Z) :
  conversation s = Some log →
  usage_today s = Some (mkUsage day 51 p c) →
  query_route env (ask q) s = reject s (Some REQUEST_LIMIT_MSG) 429.
Proof.
  intros Hlog Hu. unfold query_route, ask. rewrite Hlog.
  cbn [is_json get_json negb payload_truthy has_query].
  rewrite bool_decide_eq_false_2 by (apply insert_non_empty).
  rewrite lookup_singleton_eq.
  rewrite (bool_decide_eq_true_2 (is_Some (Some _))) by (eexists; reflexivity).
  cbn [negb]. unfold check_rate_limit. rewrite Hu. reflexivity.
Qed.

(** X18: on one day, with a provider that answers and reports at most
    500 completion tokens a time, a new session is served 51 queries in a
    row -- the record then counts 51 requests and the sums of the tokens
    -- and the 52nd is refused with the request-limit message, without a
    provider call. *)
Theorem fifty_one_served (env : Env) (cpl : Completion) (q : str)
    (s : Session) :
  is_Some (conversation s) →
  usage_today s = None →
  (∀ m, provider env m = Returns cpl) →
  0 ≤ usage_completion_tokens cpl ≤ 500 →
  usage_today (run (replicate 51 (env, Query (ask q))) s)
  = Some (mkUsage (today env) 51 (51 * usage_prompt_tokens cpl)
                  (51 * usage_completion_tokens cpl))
  ∧ query_route env (ask q) (run (replicate 51 (env, Query (ask q))) s)
    = reject (run (replicate 51 (env, Query (ask q))) s)
             (Some REQUEST_LIMIT_MSG) 429.
Proof.
  intros Hactive Hnone Hprov Hct.
  destruct (served_in_a_row env cpl q s 50 Hactive Hnone Hprov Hct)
    as [[log Hlog] Hu]; [lia|].
  change (Z.of_nat 51) with 51 in Hu.
  split; [exact Hu|]. exact (refused_at_51 env q _ log _ _ _ Hlog Hu).
Qed.

Lemma fifty_one_served_witness :
  let env := answering (lit "4") 10 1 in
  let q := lit "What is 2+2?" in
  usage_today (run (replicate 51 (env, Query (ask q))) fresh_session)
  = Some (mkUsage (today env) 51 (51 * 10) (51 * 1))
  ∧ query_route env (ask q)
      (run (replicate 51 (env, Query (ask q))) fresh_session)
    = reject (run (replicate 51 (env, Query (ask q))) fresh_session)
             (Some REQUEST_LIMIT_MSG) 429.
Proof.
  apply (fifty_one_served (answering (lit "4") 10 1)
           (mkCompletion 10 1 (10 + 1) (Some (lit "4")))
           (lit "What is 2+2?") fresh_session).
  - eexists. reflexivity.
  - reflexivity.
  - intros m. reflexivity.
  - simpl. lia.
Defined.

End DailyQuota.
